(** * Primer picking: a shallow embedding of [main_picking_primers.py]

    The program is one Python class, [Primer], whose constructor derives
    a handful of attributes from a DNA string and whose static methods
    compare two primers.  The embedding has two layers:

    - [Py]: the fragment of Python the class relies on (strings, slices,
      subscripts, [dict] lookup, [list.insert], [str.count], true
      division, attribute lookup on a [str]) with the exceptions these
      operations raise;
    - [Primer]: the class itself, method by method.

    Modelling choices.  A Python [int] is a [Z].  A [str] is a list of
    characters and a one-character string is a one-element list.  A
    [float] is an IEEE 754 binary64 value, held as a [spec_float]; [/]
    on two ints returns the binary64 value nearest to the exact
    quotient, ties to even, as CPython does, and raises on a zero
    divisor or when that value is out of range.  A method that reads
    [self.seq] or [self.len] takes those attributes as arguments, so
    that [__init__] can call it before the remaining attributes exist,
    exactly as the source does. *)

From Stdlib Require Import ZArith QArith Qabs Ascii String SpecFloat.
From stdpp Require Import base option list gmap strings.

Local Open Scope Z_scope.

(** ** The Python fragment *)

Module Py.

Abbreviation str := (list ascii).

(** A string literal. *)
Definition lit (s : string) : str := list_ascii_of_string s.

(** The attribute names the program mentions. *)
Inductive attr : Set :=
| a_seq | a_len | a_gc | a_tm | a_min17 | a_end | a_comp
| a_count | a_join.

Inductive exn : Type :=
| ZeroDivisionError
| IndexError
| KeyError (key : str)
| AttributeError (name : attr)
| TypeError
| OverflowError.

(** A computation either returns or raises. *)
Inductive result (A : Type) : Type :=
| Ok (a : A)
| Raise (e : exn).
Arguments Ok {A} a.
Arguments Raise {A} e.

#[global] Instance result_ret : MRet result := @Ok.
#[global] Instance result_bind : MBind result :=
  λ A B f m, match m with Ok a => f a | Raise e => Raise e end.

Definition returns {A} (m : result A) : Prop := ∃ a, m = Ok a.
Definition raises {A} (m : result A) : Prop := ∃ e, m = Raise e.

(** A left-to-right loop whose body may raise: [for x in xs: acc = body(acc, x)]. *)
Fixpoint for_each {A B} (body : B → A → result B) (xs : list A) (acc : B)
  : result B :=
  match xs with
  | [] => Ok acc
  | x :: xs' => acc' ← body acc x; for_each body xs' acc'
  end.

(** [len(l)] *)
Definition len {A} (l : list A) : Z := Z.of_nat (length l).

(** [range(n)]: empty when [n <= 0]. *)
Definition range (n : Z) : list Z := seqZ 0 n.

(** Iterating over a string yields its one-character substrings. *)
Definition iter (s : str) : list str := (λ c, [c]) <$> s.

(** [sep.join(parts)] *)
Definition join (sep : str) (parts : list str) : str :=
  match parts with
  | [] => []
  | p :: ps => p ++ concat ((λ q, sep ++ q) <$> ps)
  end.

(** Slice bounds are clamped into [0 .. n]; a negative bound counts
    from the end. *)
Definition clamp (n i : Z) : Z :=
  if i <? 0 then Z.max 0 (n + i) else Z.min i n.

(** [l[lo:hi]], either bound possibly omitted. *)
Definition slice {A} (l : list A) (lo hi : option Z) : list A :=
  let n := len l in
  let a := from_option (clamp n) 0 lo in
  let b := from_option (clamp n) n hi in
  take (Z.to_nat (b - a)) (drop (Z.to_nat a) l).

(** [l[i]] on a list. *)
Definition getitem {A} (l : list A) (i : Z) : result A :=
  let j := if i <? 0 then i + len l else i in
  if j <? 0 then Raise IndexError
  else match l !! Z.to_nat j with
       | Some x => Ok x
       | None => Raise IndexError
       end.

(** [s[i]] on a string: a one-character string. *)
Definition str_getitem (s : str) (i : Z) : result str :=
  c ← getitem s i; mret [c].

(** [d[k]] on a dict. *)
Definition dict_getitem (d : gmap str str) (k : str) : result str :=
  match d !! k with
  | Some v => Ok v
  | None => Raise (KeyError k)
  end.

(** [l.insert(i, x)]: the list grows by one; [x] lands before
    position [i]. *)
Definition list_insert {A} (i : Z) (x : A) (l : list A) : list A :=
  let a := Z.to_nat (clamp (len l) i) in
  take a l ++ x :: drop a l.

(** [s.startswith(sub)] *)
Fixpoint startswith (s sub : str) : bool :=
  match sub, s with
  | [], _ => true
  | _ :: _, [] => false
  | c :: sub', d :: s' => bool_decide (c = d) && startswith s' sub'
  end.

(** [sub in s] for strings: [sub] occurs as a substring. *)
Fixpoint str_contains (s sub : str) : bool :=
  startswith s sub ||
  match s with
  | [] => false
  | _ :: s' => str_contains s' sub
  end.

(** [x in t] for a tuple of strings. *)
Definition tuple_contains (t : list str) (x : str) : bool :=
  existsb (λ y, bool_decide (x = y)) t.

(** [s.count(sub)]: occurrences of [sub], scanned from the left without
    overlap; [skip] is the number of characters still covered by the
    last occurrence found. *)
Fixpoint count_from (sub s : str) (skip : nat) : Z :=
  match s with
  | [] => match sub with [] => 1 | _ => 0 end
  | _ :: s' =>
      match skip with
      | S k => count_from sub s' k
      | O => if startswith s sub
             then 1 + count_from sub s' (length sub - 1)
             else count_from sub s' 0
      end
  end.

Definition count (s sub : str) : Z := count_from sub s 0.

(** [sum(xs)] over ints. *)
Definition sum (xs : list Z) : Z := fold_left Z.add xs 0.

(** A Python float: a binary64 value. *)
Abbreviation float := spec_float.

(** The integer nearest to [num / den], ties to even ([den > 0]). *)
Definition rne (num den : Z) : Z :=
  let q := num / den in
  match 2 * (num mod den) ?= den with
  | Lt => q
  | Gt => q + 1
  | Eq => if Z.even q then q else q + 1
  end.

(** The quotient [a / b] of two positive ints rounded to 53
    significant bits, or to a multiple of 2^-1074 where it is too small
    for that: the significand [n] and the exponent [E] counted from
    -1074, so that the rounded value is [n * 2^(E - 1074)]. *)
Definition round_mag (a b : Z) : Z * Z :=
  let A := a * 2 ^ 1074 in
  let E := Z.max (Z.log2 (A / b) - 52) 0 in
  (rne A (b * 2 ^ E), E).

(** The rounded quotient in units of 2^-1074. *)
Definition ulps (a b : Z) : Z :=
  let '(n, E) := round_mag a b in n * 2 ^ E.

(** The binary64 value nearest to [a / b], with the sign of the exact
    quotient, zero when the quotient is too small and infinite when it
    is too large ([b] is not zero). *)
Definition div64 (a b : Z) : float :=
  let sign := xorb (a <? 0) (b <? 0) in
  let '(n, E) := round_mag (Z.abs a) (Z.abs b) in
  if n =? 0 then S754_zero sign
  else
    let '(m, E') := if n =? 2 ^ 53 then (2 ^ 52, E + 1) else (n, E) in
    if 2045 <? E' then S754_infinity sign
    else S754_finite sign (Z.to_pos m) (E' - 1074).

Definition finite (f : float) : bool :=
  match f with
  | S754_zero _ | S754_finite _ _ _ => true
  | _ => false
  end.

(** A finite binary64 value in units of 2^-1074 (its exponent is at
    least -1074), and as a rational. *)
Definition ulps_of (f : float) : Z :=
  match f with
  | S754_finite s m e =>
      let v := Z.pos m * 2 ^ (e + 1074) in if s then - v else v
  | _ => 0
  end.

Definition F2Q (f : float) : Q :=
  (inject_Z (ulps_of f) / inject_Z (2 ^ 1074))%Q.

(** [f >= k] for a float and an int: the comparison is exact. *)
Definition float_ge_int (f : float) (k : Z) : bool :=
  match f with
  | S754_nan => false
  | S754_infinity s => negb s
  | _ => k * 2 ^ 1074 <=? ulps_of f
  end.

(** [a / b] on ints: [ZeroDivisionError] on a zero divisor,
    [OverflowError] when the quotient is too large for a float. *)
Definition truediv (a b : Z) : result float :=
  if b =? 0 then Raise ZeroDivisionError
  else
    let f := div64 a b in
    if finite f then Ok f else Raise OverflowError.

(** What an expression can evaluate to where the program subscripts
    the outcome of an attribute lookup. *)
Inductive object : Type :=
| Str (s : str)
| BoundMethod (self : str) (name : attr).

(** [s.name] on a string.  The built-in type has the methods [count]
    and [join]; it has no attribute named [seq], [len], [gc], [tm],
    [min17], [end] or [comp]. *)
Definition str_getattr (s : str) (name : attr) : result object :=
  match name with
  | a_count | a_join => Ok (BoundMethod s name)
  | _ => Raise (AttributeError name)
  end.

(** [o[lo:hi]] on the outcome of an attribute lookup. *)
Definition obj_slice (o : object) (lo hi : option Z) : result str :=
  match o with
  | Str s => Ok (slice s lo hi)
  | BoundMethod _ _ => Raise TypeError
  end.

End Py.

Import Py.

(** ** The class *)

Module Primer.

(** An instance, once [__init__] has run to completion. *)
Record t : Type := mk {
  seq : str;
  len : Z;
  gc : float;
  tm : Z;
  min17 : bool;
  end_ : str;
  comp : str
}.

(** The literal [{'A': 'T', 'T': 'A', 'C': 'G', 'G': 'C'}], which
    [primer_comp], [no_hairpin] and [no_primer_dimer] each rebuild. *)
Definition complement_dict : gmap str str :=
  {[ lit "A" := lit "T"; lit "T" := lit "A";
     lit "C" := lit "G"; lit "G" := lit "C" ]}.

(** [100 * sum(1 for nuc in self.seq if nuc in 'GC') / self.len] *)
Definition gc_content (seq : str) (len : Z) : result float :=
  truediv
    (100 * sum ((λ _, 1) <$>
                List.filter (λ nuc, str_contains (lit "GC") nuc) (iter seq)))
    len.

(** [self.len >= 17] *)
Definition min_large_17 (len : Z) : bool := 17 <=? len.

(** [4 * (count('C') + count('G')) + 2 * (count('A') + count('T'))] *)
Definition primer_tm (seq : str) : Z :=
  4 * (count seq (lit "C") + count seq (lit "G"))
  + 2 * (count seq (lit "A") + count seq (lit "T")).

(** [''.join([complement_dict[i] for i in self.seq])[::-1]] *)
Definition primer_comp (seq : str) : result str :=
  parts ← mapM (dict_getitem complement_dict) (iter seq);
  mret (reverse (join [] parts)).

(** [''.join([complement_dict[nuc] for nuc in window])], the
    expression inserted by the second loop of [no_hairpin]. *)
Definition complement_window (window : str) : result str :=
  parts ← mapM (dict_getitem complement_dict) (iter window);
  mret (join [] parts).

(** The first loop appends the same slice to both lists; the second
    loop runs over [range] of the length the second list has when the
    loop starts, and at each [i] inserts at position [i] the
    complement of the element it finds at position [i]. *)
Definition no_hairpin (seq : str) (len : Z)
  : result (list str * list str) :=
  let '(list_of_hairpin_trials_1, list_of_hairpin_trials_2) :=
    fold_left
      (λ '(l1, l2) i,
         (l1 ++ [slice seq (Some i) (Some (i + 4))],
          l2 ++ [slice seq (Some i) (Some (i + 4))]))
      (range (len - 3)) ([], []) in
  list_of_hairpin_trials_2 ←
    for_each
      (λ l2 i,
         window ← getitem l2 i;
         c ← complement_window window;
         mret (list_insert i c l2))
      (range (Py.len list_of_hairpin_trials_2))
      list_of_hairpin_trials_2;
  mret (list_of_hairpin_trials_1, list_of_hairpin_trials_2).

(** The constructor, statement by statement. *)
Definition __init__ (dna_string : str) : result t :=
  let seq := dna_string in
  let len := Py.len dna_string in
  gc ← gc_content seq len;
  let tm := primer_tm seq in
  let min17 := min_large_17 len in
  end_ ← str_getitem dna_string (-1);
  comp ← primer_comp seq;
  mret (mk seq len gc tm min17 end_ comp).

(** The number of positions at which two strings agree, as counted by
    the [zip] loop of [no_primer_dimer]. *)
Definition positional_matches (s1 s2 : str) : Z :=
  fold_left
    (λ number_of_comp '(nuc1, nuc2),
       if bool_decide (nuc1 = nuc2) then number_of_comp + 1
       else number_of_comp)
    (zip (iter s1) (iter s2)) 0.

(** The right-hand side [primer_1.seq[-4:], primer_2.seq.comp[-4:]] is
    evaluated left to right; [primer_2.seq] is a string, and [.comp]
    is looked up on that string. *)
Definition no_primer_dimer (primer_1 primer_2 : t) : result bool :=
  let last_nuc1 := slice (seq primer_1) (Some (-4)) None in
  seq_comp ← str_getattr (seq primer_2) a_comp;
  last_nuc2 ← obj_slice seq_comp (Some (-4)) None;
  mret (positional_matches last_nuc1 last_nuc2 <=? 2).

(** [primer_1.gc >= 50 and primer_2.gc >= 50] *)
Definition gc_content_test (primer_1 primer_2 : t) : bool :=
  float_ge_int (gc primer_1) 50 && float_ge_int (gc primer_2) 50.

(** [abs(primer_1.tm - primer_2.tm) <= 5] *)
Definition anneling_temperature_check (primer_1 primer_2 : t) : bool :=
  Z.abs (tm primer_1 - tm primer_2) <=? 5.

(** [primer_1.end in ('G', 'C') and primer_2.end in ('G', 'C')] *)
Definition is_end_g_or_c (primer_1 primer_2 : t) : bool :=
  tuple_contains [lit "G"; lit "C"] (end_ primer_1)
  && tuple_contains [lit "G"; lit "C"] (end_ primer_2).

End Primer.


(** ** Vocabulary of the specification *)

Module Spec.

(** The four bases. *)
Definition nucleotide (c : ascii) : Prop := c ∈ lit "ATCG".

(** A sequence over the four bases. *)
Definition dna (s : str) : Prop := Forall nucleotide s.

(** Base pairing: A with T, C with G; other characters have no partner
    and are left alone. *)
Definition pair (c : ascii) : ascii :=
  if decide (c = "A"%char) then "T"%char
  else if decide (c = "T"%char) then "A"%char
  else if decide (c = "C"%char) then "G"%char
  else if decide (c = "G"%char) then "C"%char
  else c.

(** The number of positions of [s] that hold the character [c]. *)
Definition occ (c : ascii) (s : str) : Z :=
  Z.of_nat (length (filter (λ d, d = c) s)).

(** The substrings of width four, by starting position. *)
Definition windows (s : str) : list str :=
  (λ i, take 4 (drop i s)) <$> List.seq 0 (length s - 3).

(** The dimer test as the specification words it: last four symbols of
    the first primer's sequence against the last four of the second
    primer's complement, true iff at most two positions agree. *)
Definition no_primer_dimer_claimed (primer_1 primer_2 : Primer.t) : bool :=
  Primer.positional_matches
    (slice (Primer.seq primer_1) (Some (-4)) None)
    (slice (Primer.comp primer_2) (Some (-4)) None) <=? 2.

(** The hairpin scan as the specification words it: the windows, and
    the same windows complemented symbol by symbol. *)
Definition no_hairpin_claimed (s : str) : list str * list str :=
  (windows s, (λ w : str, pair <$> w) <$> windows s).

(** Membership among the four bases can be decided. *)
#[global] Instance nucleotide_dec (c : ascii) : Decision (nucleotide c).
Proof. unfold nucleotide. apply _. Defined.

(** The derived attributes the specification's worked example
    announces for GCGCATATGCGCATG; the GC content is the float that
    [100 * 10 / 15] evaluates to. *)
Definition example_as_claimed (p : Primer.t) : Prop :=
  Primer.min17 p = false ∧
  truediv (100 * 10) 15 = Ok (Primer.gc p) ∧
  Primer.tm p = 4 * 10 + 2 * 5 ∧
  Primer.end_ p = lit "G".

(** A Primer object whose [tm] attribute holds the given value; the
    pairwise temperature check reads no other attribute. *)
Definition with_tm (tm : Z) : Primer.t :=
  {| Primer.seq := lit "ACGT"; Primer.len := 4;
     Primer.gc := div64 50 1;
     Primer.tm := tm; Primer.min17 := false; Primer.end_ := lit "T";
     Primer.comp := lit "ACGT" |}.

End Spec.

Import Spec.

(** ** Facts about the Python fragment *)

Section PyFacts.

Lemma bind_Ok {A B} (f : A → result B) (a : A) : (Ok a ≫= f) = f a.
Proof. reflexivity. Qed.

Lemma len_nonneg {A} (l : list A) : 0 ≤ Py.len l.
Proof. unfold Py.len. lia. Qed.

Lemma len_zero {A} (l : list A) : Py.len l = 0 ↔ l = [].
Proof.
  unfold Py.len. destruct l as [|x l]; simpl; split; intros H;
    try done; lia.
Qed.

Lemma join_iter (s : str) : join [] (iter s) = s.
Proof.
  destruct s as [|c s]; [done|]. cbn. f_equal.
  induction s as [|d s IH]; cbn; [done|]. by f_equal.
Qed.

(** A subscript within bounds. *)
Lemma getitem_nat {A} (l : list A) (i : nat) (x : A) :
  l !! i = Some x → getitem l (Z.of_nat i) = Ok x.
Proof.
  intros Hi. unfold getitem.
  rewrite !(proj2 (Z.ltb_ge (Z.of_nat i) 0)) by lia.
  by rewrite Nat2Z.id, Hi.
Qed.

(** The last character, read by [s[-1]]. *)
Lemma str_getitem_last (s : str) (c : ascii) :
  str_getitem (s ++ [c]) (-1) = Ok [c].
Proof.
  unfold str_getitem, getitem. simpl (_ <? _).
  cbv iota. unfold Py.len. rewrite length_app. simpl length.
  replace (-1 + Z.of_nat (length s + 1)) with (Z.of_nat (length s)) by lia.
  destruct (Z.ltb_spec (Z.of_nat (length s)) 0) as [?|_]; [lia|].
  change (-1 <? 0) with true. cbv iota.
  rewrite Nat2Z.id, lookup_app_r, Nat.sub_diag by lia. reflexivity.
Qed.

(** [s.count(c)] for a one-character needle counts positions. *)
Lemma count_single (s : str) (c : ascii) : count s [c] = occ c s.
Proof.
  unfold count, occ. induction s as [|d s IH]; [done|].
  cbn [count_from startswith length]. rewrite Nat.sub_diag, IH.
  rewrite filter_cons. destruct (decide (d = c)) as [-> | Hne].
  - rewrite bool_decide_eq_true_2 by done. destruct s; simpl; lia.
  - rewrite bool_decide_eq_false_2 by congruence. done.
Qed.

Lemma sum_shift (xs : list Z) (a : Z) :
  fold_left Z.add xs a = a + fold_left Z.add xs 0.
Proof.
  revert a. induction xs as [|x xs IH]; intros a; simpl; [lia|].
  rewrite (IH (a + x)), (IH (0 + x)). lia.
Qed.

Lemma sum_ones {A} (l : list A) : sum ((λ _, 1) <$> l) = Py.len l.
Proof.
  unfold sum, Py.len. induction l as [|x l IH]; [done|].
  rewrite fmap_cons. cbn [fold_left length]. rewrite sum_shift, IH. lia.
Qed.

End PyFacts.

(** ** Facts about float division *)

Section Rounding.

Ltac rne_cases num den :=
  unfold rne;
  pose proof (Z.div_mod num den ltac:(lia));
  pose proof (Z.mod_pos_bound num den ltac:(lia));
  destruct (Z.compare_spec (2 * (num mod den)) den);
  try destruct (Z.even (num / den)) eqn:?.

Lemma rne_bounds (num den : Z) :
  0 < den → num / den ≤ rne num den ≤ num / den + 1.
Proof. intros. rne_cases num den; lia. Qed.

Lemma rne_lower (num den K : Z) :
  0 < den → K * den ≤ num → K ≤ rne num den.
Proof.
  intros Hd HK. pose proof (rne_bounds num den Hd).
  assert (K ≤ num / den) by (apply Z.div_le_lower_bound; lia). lia.
Qed.

Lemma rne_upper (num den K : Z) :
  0 < den → num ≤ K * den → rne num den ≤ K.
Proof.
  intros Hd HK. destruct (Z_lt_le_dec (num / den) K) as [Hlt|Hge].
  - pose proof (rne_bounds num den Hd). lia.
  - rne_cases num den; nia.
Qed.

Lemma div_le_cross (n1 d1 n2 d2 : Z) :
  0 < d1 → 0 < d2 → n1 * d2 ≤ n2 * d1 → n1 / d1 ≤ n2 / d2.
Proof.
  intros H1 H2 H. apply Z.div_le_lower_bound; [done|].
  pose proof (Z.mul_div_le n1 d1 H1). nia.
Qed.

Lemma rne_mono (n1 d1 n2 d2 : Z) :
  0 < d1 → 0 < d2 → n1 * d2 ≤ n2 * d1 → rne n1 d1 ≤ rne n2 d2.
Proof.
  intros H1 H2 H. pose proof (div_le_cross n1 d1 n2 d2 H1 H2 H) as Hq.
  pose proof (rne_bounds n1 d1 H1). pose proof (rne_bounds n2 d2 H2).
  destruct (Z.eq_dec (n1 / d1) (n2 / d2)) as [E|E]; [|lia].
  pose proof (Z.div_mod n1 d1 ltac:(lia)) as D1.
  pose proof (Z.div_mod n2 d2 ltac:(lia)) as D2.
  pose proof (Z.mod_pos_bound n1 d1 H1).
  pose proof (Z.mod_pos_bound n2 d2 H2).
  assert (n1 mod d1 * d2 ≤ n2 mod d2 * d1) as Hr by nia.
  unfold rne in *. rewrite <- E in *.
  destruct (Z.compare_spec (2 * (n1 mod d1)) d1);
    destruct (Z.compare_spec (2 * (n2 mod d2)) d2);
    destruct (Z.even (n1 / d1)); nia.
Qed.

Lemma rne_err (num den : Z) :
  0 < den → 2 * Z.abs (rne num den * den - num) ≤ den.
Proof. intros. rne_cases num den; nia. Qed.


Lemma round_mag_range (a b n E : Z) :
  0 ≤ a → 0 < b → round_mag a b = (n, E) →
  0 ≤ E ∧ 0 ≤ n ≤ 2 ^ 53 ∧ (0 < E → 2 ^ 52 ≤ n).
Proof.
  intros Ha Hb. unfold round_mag. cbv zeta.
  set (A := a * 2 ^ 1074). set (x := A / b).
  intros [= <- <-]. set (E := Z.max (Z.log2 x - 52) 0).
  assert (0 ≤ A) as HA by (unfold A; nia).
  assert (0 ≤ x) as Hx by (by apply Z.div_pos).
  assert (0 ≤ E) as HE by lia.
  assert (0 < 2 ^ E) as HpE by (by apply Z.pow_pos_nonneg).
  pose proof (Z.div_mod A b ltac:(lia)) as HD. fold x in HD.
  pose proof (Z.mod_pos_bound A b Hb) as HM.
  split; [done|]. split; [split|].
  - apply rne_lower; nia.
  - apply rne_upper; [nia|].
    assert (x < 2 ^ (E + 53)) as Hlt.
    { destruct (Z.eq_dec x 0) as [->|Hx0].
      - by apply Z.pow_pos_nonneg; lia.
      - pose proof (Z.log2_spec x ltac:(lia)) as [_ Hs].
        eapply Z.lt_le_trans; [exact Hs|].
        apply Z.pow_le_mono_r; lia. }
    rewrite Z.pow_add_r in Hlt by lia. nia.
  - intros HE0. apply rne_lower; [nia|].
    assert (E = Z.log2 x - 52) as HEL by lia.
    assert (0 < x) as Hx0.
    { destruct (Z.eq_dec x 0) as [E0|?]; [|lia].
      rewrite E0 in HEL. simpl in HEL. lia. }
    pose proof (Z.log2_spec x Hx0) as [Hs _].
    replace (Z.log2 x) with (52 + E) in Hs by lia.
    rewrite Z.pow_add_r in Hs by lia. nia.
Qed.

Lemma ulps_mono (a1 b1 a2 b2 : Z) :
  0 ≤ a1 → 0 < b1 → 0 ≤ a2 → 0 < b2 → a1 * b2 ≤ a2 * b1 →
  ulps a1 b1 ≤ ulps a2 b2.
Proof.
  intros Ha1 Hb1 Ha2 Hb2 H. unfold ulps.
  destruct (round_mag a1 b1) as [n1 E1] eqn:R1.
  destruct (round_mag a2 b2) as [n2 E2] eqn:R2.
  pose proof (round_mag_range a1 b1 n1 E1 Ha1 Hb1 R1) as (HE1 & Hn1 & _).
  pose proof (round_mag_range a2 b2 n2 E2 Ha2 Hb2 R2) as (HE2 & Hn2 & Hlow).
  unfold round_mag in R1, R2. cbv zeta in R1, R2.
  injection R1 as Hn1e HE1e. injection R2 as Hn2e HE2e.
  assert (0 < 2 ^ 1074) as HP by (by apply Z.pow_pos_nonneg).
  assert (a1 * 2 ^ 1074 / b1 ≤ a2 * 2 ^ 1074 / b2) as Hx
    by (apply div_le_cross; nia).
  apply Z.log2_le_mono in Hx.
  assert (E1 ≤ E2) as HEE by lia.
  assert (0 < 2 ^ E1) as Hp1 by (by apply Z.pow_pos_nonneg).
  destruct (Z.eq_dec E1 E2) as [<-|Hne].
  - assert (n1 ≤ n2); [|nia].
    rewrite <- Hn1e, <- Hn2e, HE1e, HE2e.
    apply rne_mono; [nia..|].
    assert (a1 * b2 * (2 ^ 1074 * 2 ^ E1) ≤ a2 * b1 * (2 ^ 1074 * 2 ^ E1))
      by (apply Z.mul_le_mono_nonneg_r; nia).
    lia.
  - specialize (Hlow ltac:(lia)).
    assert (2 * 2 ^ E1 ≤ 2 ^ E2) as Hpp.
    { replace (2 * 2 ^ E1) with (2 ^ (E1 + 1))
        by (rewrite Z.pow_add_r by lia; lia).
      apply Z.pow_le_mono_r; lia. }
    assert (2 ^ 53 = 2 * 2 ^ 52) as E53 by reflexivity.
    nia.
Qed.

Lemma ulps_err (a b n E : Z) :
  0 < b → round_mag a b = (n, E) →
  2 * Z.abs (ulps a b * b - a * 2 ^ 1074) ≤ b * 2 ^ E.
Proof.
  intros Hb R. unfold ulps. rewrite R.
  unfold round_mag in R. cbv zeta in R. injection R as Hn HE.
  set (E' := Z.max (Z.log2 (a * 2 ^ 1074 / b) - 52) 0) in *.
  assert (0 < 2 ^ E) as HpE by (apply Z.pow_pos_nonneg; lia).
  rewrite HE in Hn.
  pose proof (rne_err (a * 2 ^ 1074) (b * 2 ^ E) ltac:(nia)) as Herr.
  rewrite Hn in Herr.
  replace (n * 2 ^ E * b) with (n * (b * 2 ^ E)) by lia. exact Herr.
Qed.


Lemma div64_ulps (a b : Z) :
  0 ≤ a → 0 < b → ulps a b < 2 ^ 2098 →
  finite (div64 a b) = true ∧ ulps_of (div64 a b) = ulps a b.
Proof.
  intros Ha Hb. unfold div64, ulps.
  rewrite (proj2 (Z.ltb_ge a 0)), (proj2 (Z.ltb_ge b 0)) by lia.
  rewrite !Z.abs_eq by lia.
  destruct (round_mag a b) as [n E] eqn:R.
  pose proof (round_mag_range a b n E Ha Hb R) as (HE & Hn & Hlow).
  assert (0 < 2 ^ E) as HpE by (by apply Z.pow_pos_nonneg).
  assert (2 ^ 2098 = 2 ^ 53 * 2 ^ 2045) as -> by reflexivity.
  assert (2 ^ 53 = 2 * 2 ^ 52) as E53 by reflexivity.
  assert (0 < 2 ^ 52) as H52 by reflexivity.
  intros Hlt. cbn [xorb].
  destruct (Z.eqb_spec n 0) as [->|Hn0]; [done|].
  destruct (Z.eqb_spec n (2 ^ 53)) as [->|Hn53].
  - destruct (Z.ltb_spec 2045 (E + 1)) as [Hov|Hok].
    + assert (2 ^ 2045 ≤ 2 ^ E) by (apply Z.pow_le_mono_r; lia). nia.
    + split; [done|]. cbn [ulps_of]. rewrite Z2Pos.id by done.
      replace (E + 1 - 1074 + 1074) with (E + 1) by lia.
      rewrite Z.pow_add_r by lia. lia.
  - destruct (Z.ltb_spec 2045 E) as [Hov|Hok].
    + specialize (Hlow ltac:(lia)).
      assert (2 * 2 ^ 2045 ≤ 2 ^ E); [|nia].
      change (2 * 2 ^ 2045) with (2 ^ 2046). apply Z.pow_le_mono_r; lia.
    + split; [done|]. cbn [ulps_of]. rewrite Z2Pos.id by lia.
      by replace (E - 1074 + 1074) with E by lia.
Qed.

(** A quotient between 0 and 100 rounds to a value between 0 and 100. *)
Lemma ulps_percent (a b : Z) :
  0 ≤ a ≤ 100 * b → 0 < b → 0 ≤ ulps a b ≤ 100 * 2 ^ 1074.
Proof.
  intros Ha Hb. split.
  - change 0 with (ulps 0 1) at 1. apply ulps_mono; lia.
  - replace (100 * 2 ^ 1074) with (ulps 100 1) by (vm_compute; reflexivity).
    apply ulps_mono; lia.
Qed.

Lemma round_mag_percent (a b n E : Z) :
  0 ≤ a ≤ 100 * b → 0 < b → round_mag a b = (n, E) → E ≤ 1028.
Proof.
  intros Ha Hb. unfold round_mag. cbv zeta. intros [= _ <-].
  set (x := a * 2 ^ 1074 / b).
  assert (0 < 2 ^ 1074) as HP by reflexivity.
  assert (0 ≤ x) as Hx0 by (apply Z.div_pos; nia).
  assert (x < 2 ^ 1081) as Hx.
  { apply Z.le_lt_trans with (100 * 2 ^ 1074); [|reflexivity].
    apply Z.div_le_upper_bound; nia. }
  destruct (Z.eq_dec x 0) as [->|Hne]; [simpl; lia|].
  apply Z.log2_lt_pow2 in Hx; lia.
Qed.


Lemma F2Q_bounds (f : float) (lo hi : Z) :
  lo * 2 ^ 1074 ≤ ulps_of f ≤ hi * 2 ^ 1074 →
  (inject_Z lo <= F2Q f)%Q ∧ (F2Q f <= inject_Z hi)%Q.
Proof.
  intros [Hlo Hhi]. unfold F2Q.
  assert (0 < inject_Z (2 ^ 1074))%Q as HP
    by (change 0%Q with (inject_Z 0); by rewrite <- Zlt_Qlt).
  split.
  - apply Qle_shift_div_l; [done|]. by rewrite <- inject_Z_mult, <- Zle_Qle.
  - apply Qle_shift_div_r; [done|]. by rewrite <- inject_Z_mult, <- Zle_Qle.
Qed.

Lemma Qabs_quotient_le (D M : Z) (K : positive) :
  0 < M → Z.abs D * Z.pos K ≤ M →
  (Qabs (inject_Z D / inject_Z M) <= 1 # K)%Q.
Proof.
  intros HM HD.
  assert (0 < inject_Z M)%Q as HMQ
    by (change 0%Q with (inject_Z 0); by rewrite <- Zlt_Qlt).
  apply Qabs_Qle_condition. split.
  - apply Qle_shift_div_l; [done|].
    unfold Qle, Qmult, Qopp, inject_Z; simpl. lia.
  - apply Qle_shift_div_r; [done|].
    unfold Qle, Qmult, inject_Z; simpl. lia.
Qed.

(** The float differs from the exact quotient by at most 2^-47 when
    the quotient is at most a hundred. *)
Lemma div64_error (a b : Z) :
  0 ≤ a ≤ 100 * b → 0 < b →
  (Qabs (F2Q (div64 a b) - inject_Z a / inject_Z b) <= 1 # 2 ^ 47)%Q.
Proof.
  intros Ha Hb. pose proof (ulps_percent a b Ha Hb) as [_ Hhi].
  destruct (div64_ulps a b) as [_ Hu]; [lia|done|..].
  { eapply Z.le_lt_trans; [exact Hhi|reflexivity]. }
  unfold F2Q. rewrite Hu.
  destruct (round_mag a b) as [n E] eqn:R.
  pose proof (ulps_err a b n E Hb R) as Herr.
  pose proof (round_mag_percent a b n E Ha Hb R) as HE.
  pose proof (round_mag_range a b n E ltac:(lia) Hb R) as (HE0 & _).
  assert (2 ^ E ≤ 2 ^ 1028) as HpE by (apply Z.pow_le_mono_r; lia).
  assert (0 < 2 ^ 1074) as HP by reflexivity.
  assert (2 ^ 1028 * 2 ^ 47 = 2 * 2 ^ 1074) as Hpow by reflexivity.
  set (P := 2 ^ 1074) in *. set (U := ulps a b) in *.
  assert (inject_Z U / inject_Z P - inject_Z a / inject_Z b
          == inject_Z (U * b - a * P) / inject_Z (P * b))%Q as ->.
  { rewrite !inject_Z_mult.
    unfold Zminus. rewrite inject_Z_plus, inject_Z_opp, !inject_Z_mult.
    field. split.
    - change 0%Q with (inject_Z 0). rewrite inject_Z_injective. lia.
    - change 0%Q with (inject_Z 0). rewrite inject_Z_injective. lia. }
  apply Qabs_quotient_le; [nia|].
  change (Z.pos (2 ^ 47)) with (2 ^ 47).
  set (p1028 := 2 ^ 1028) in *. set (p47 := 2 ^ 47) in *.
  assert (0 < p47) by reflexivity. nia.
Qed.

(** When the float of a percentage reaches 50: always when the exact
    quotient does, and only then as long as the divisor stays below
    50 * 2^47, where the quotient cannot come within half a unit in the
    last place of 50 from below. *)
Lemma percent_ge_50 (k n : Z) :
  0 ≤ k ≤ n → 0 < n →
  (n ≤ 2 * k → 50 * 2 ^ 1074 ≤ ulps (100 * k) n) ∧
  (n ≤ 50 * 2 ^ 47 → 50 * 2 ^ 1074 ≤ ulps (100 * k) n → n ≤ 2 * k).
Proof.
  intros Hk Hn. split.
  - intros Hhalf.
    replace (50 * 2 ^ 1074) with (ulps 50 1) by (vm_compute; reflexivity).
    apply ulps_mono; lia.
  - intros Hsmall Hge. destruct (Z_le_gt_dec n (2 * k)) as [?|Hlt]; [done|].
    exfalso.
    assert (ulps (100 * k) n ≤ ulps (50 * 2 ^ 47 - 1) (2 ^ 47)) as Hle.
    { assert (0 < 2 ^ 47) as H47 by reflexivity.
      set (p47 := 2 ^ 47) in *. apply ulps_mono; nia. }
    assert (ulps (50 * 2 ^ 47 - 1) (2 ^ 47) < 50 * 2 ^ 1074) as Hbelow
      by (vm_compute; reflexivity).
    lia.
Qed.

Lemma finite_ge (f : float) (k : Z) :
  finite f = true → float_ge_int f k = (k * 2 ^ 1074 <=? ulps_of f).
Proof. by destruct f. Qed.

(** Dividing by a positive int an int between 0 and a hundred times
    the divisor never overflows. *)
Lemma truediv_percent (a b : Z) :
  0 ≤ a ≤ 100 * b → 0 < b →
  truediv a b = Ok (div64 a b) ∧
  finite (div64 a b) = true ∧
  ulps_of (div64 a b) = ulps a b.
Proof.
  intros Ha Hb. pose proof (ulps_percent a b Ha Hb) as [_ Hhi].
  destruct (div64_ulps a b) as [Hf Hu]; [lia|done|..].
  { eapply Z.le_lt_trans; [exact Hhi|reflexivity]. }
  unfold truediv. rewrite (proj2 (Z.eqb_neq b 0)) by lia.
  cbv zeta. by rewrite Hf.
Qed.

End Rounding.

(** ** Facts about the class *)

Section PrimerFacts.

Lemma nucleotide_cases (c : ascii) :
  nucleotide c ↔
  c = "A"%char ∨ c = "T"%char ∨ c = "C"%char ∨ c = "G"%char.
Proof.
  unfold nucleotide, lit. simpl. rewrite !elem_of_cons, elem_of_nil.
  tauto.
Qed.

Lemma pair_nucleotide (c : ascii) : nucleotide c → nucleotide (pair c).
Proof.
  rewrite !nucleotide_cases. intros [-> | [-> | [-> | ->]]]; vm_compute; tauto.
Qed.

Lemma pair_involutive (c : ascii) : pair (pair c) = c.
Proof.
  unfold pair. repeat (case_decide; subst; try done).
Qed.

(** The dictionary holds the partner of each base, and nothing else. *)
Lemma complement_dict_nucleotide (c : ascii) :
  nucleotide c →
  dict_getitem Primer.complement_dict [c] = Ok [pair c].
Proof.
  rewrite nucleotide_cases. intros [-> | [-> | [-> | ->]]]; reflexivity.
Qed.

Lemma complement_dict_other (c : ascii) :
  ¬ nucleotide c →
  dict_getitem Primer.complement_dict [c] = Raise (KeyError [c]).
Proof.
  rewrite nucleotide_cases. intros Hc.
  unfold dict_getitem, Primer.complement_dict, lit. simpl.
  rewrite !lookup_insert_ne, lookup_singleton_ne;
    [done|intros [= <-]; tauto..].
Qed.

(** The comprehension [[complement_dict[i] for i in s]]. *)
Lemma comprehension_dna (s : str) :
  dna s →
  mapM (dict_getitem Primer.complement_dict) (iter s)
  = Ok (iter (pair <$> s)).
Proof.
  induction 1 as [|c s Hc _ IH]; [done|].
  cbn [iter fmap list_fmap mapM]. fold (iter s).
  rewrite (complement_dict_nucleotide c Hc), bind_Ok, IH. reflexivity.
Qed.

Lemma comprehension_not_dna (s : str) :
  ¬ dna s →
  ∃ c, c ∈ s ∧ ¬ nucleotide c ∧
       mapM (dict_getitem Primer.complement_dict) (iter s)
       = Raise (KeyError [c]).
Proof.
  induction s as [|d s IH]; intros Hs.
  - destruct Hs. constructor.
  - cbn [iter fmap list_fmap mapM]. fold (iter s).
    destruct (decide (nucleotide d)) as [Hd|Hd].
    + destruct IH as (c & Hin & Hc & Hm).
      { intros Hs'. apply Hs. by constructor. }
      exists c. split; [by right|]. split; [done|].
      rewrite (complement_dict_nucleotide d Hd), bind_Ok, Hm. reflexivity.
    + exists d. split; [by left|]. split; [done|].
      rewrite (complement_dict_other d Hd). reflexivity.
Qed.

Lemma primer_comp_dna (s : str) :
  dna s → Primer.primer_comp s = Ok (reverse (pair <$> s)).
Proof.
  intros Hs. unfold Primer.primer_comp.
  rewrite (comprehension_dna s Hs), bind_Ok, join_iter. reflexivity.
Qed.

Lemma complement_window_dna (w : str) :
  dna w → Primer.complement_window w = Ok (pair <$> w).
Proof.
  intros Hw. unfold Primer.complement_window.
  rewrite (comprehension_dna w Hw), bind_Ok, join_iter. reflexivity.
Qed.

(** The generator [1 for nuc in s if nuc in 'GC'] yields one item per
    G and per C. *)
Lemma gc_count (s : str) :
  sum ((λ _, 1) <$>
       List.filter (λ nuc, str_contains (lit "GC") nuc) (iter s))
  = occ "G" s + occ "C" s.
Proof.
  rewrite sum_ones. unfold occ, Py.len.
  induction s as [|c s IH]; [done|].
  cbn [iter fmap list_fmap List.filter]. fold (iter s).
  rewrite !filter_cons.
  replace (str_contains (lit "GC") [c])
    with (bool_decide (c = "G"%char) || bool_decide (c = "C"%char)).
  2:{ cbn. destruct (bool_decide (c = "G"%char)),
               (bool_decide (c = "C"%char)); reflexivity. }
  destruct (decide (c = "G"%char)) as [-> | HG].
  - rewrite (bool_decide_eq_true_2 ("G"%char = "G"%char)) by done.
    rewrite decide_False by done. cbn [orb length]. lia.
  - rewrite (bool_decide_eq_false_2 _ HG). cbn [orb].
    destruct (decide (c = "C"%char)) as [-> | HC].
    + rewrite bool_decide_eq_true_2 by done. cbn [length]. lia.
    + rewrite bool_decide_eq_false_2 by done. lia.
Qed.

(** The G and C positions of a sequence are among its positions. *)
Lemma occ_GC_bounds (s : str) :
  0 ≤ occ "G" s + occ "C" s ≤ Py.len s.
Proof.
  unfold occ, Py.len. split; [lia|].
  induction s as [|c s IH]; [done|].
  rewrite !filter_cons.
  destruct (decide (c = "G"%char)) as [-> | HG].
  - rewrite decide_False by done. cbn [length]. lia.
  - destruct (decide (c = "C"%char)); cbn [length]; lia.
Qed.

(** On a non-empty string the division in [gc_content] succeeds. *)
Lemma gc_content_nonempty (s : str) :
  s ≠ [] →
  Primer.gc_content s (Py.len s)
  = Ok (div64 (100 * (occ "G" s + occ "C" s)) (Py.len s)).
Proof.
  intros Hne. unfold Primer.gc_content. rewrite gc_count.
  pose proof (occ_GC_bounds s) as Hk.
  assert (0 < Py.len s) as Hpos.
  { pose proof (len_nonneg s). pose proof (len_zero s) as [H0 _].
    destruct (Z.eq_dec (Py.len s) 0) as [E|E]; [by apply H0 in E|lia]. }
  by destruct (truediv_percent (100 * (occ "G" s + occ "C" s))
                 (Py.len s) ltac:(lia) Hpos) as (-> & _).
Qed.

(** What the constructor builds from a non-empty sequence over the four
    bases: every statement of [__init__] succeeds. *)
Lemma init_dna (s : str) (c : ascii) :
  dna (s ++ [c]) →
  Primer.__init__ (s ++ [c])
  = Ok {| Primer.seq := s ++ [c];
          Primer.len := Py.len (s ++ [c]);
          Primer.gc :=
            div64 (100 * (occ "G" (s ++ [c]) + occ "C" (s ++ [c])))
                  (Py.len (s ++ [c]));
          Primer.tm := Primer.primer_tm (s ++ [c]);
          Primer.min17 := Primer.min_large_17 (Py.len (s ++ [c]));
          Primer.end_ := [c];
          Primer.comp := reverse (pair <$> (s ++ [c])) |}.
Proof.
  intros Hs. unfold Primer.__init__. cbv zeta.
  rewrite gc_content_nonempty by (by destruct s).
  rewrite bind_Ok, str_getitem_last, bind_Ok, (primer_comp_dna _ Hs).
  reflexivity.
Qed.

Lemma nonempty_snoc {A} (l : list A) : l ≠ [] → ∃ l' x, l = l' ++ [x].
Proof.
  destruct l as [|y l] using rev_ind; [done|]. intros _. by exists l, y.
Qed.

(** The first loop of [no_hairpin] fills both lists with the slices. *)
Lemma first_loop (w : Z → str) (xs : list Z) (a b : list str) :
  fold_left (λ '(l1, l2) i, (l1 ++ [w i], l2 ++ [w i])) xs (a, b)
  = (a ++ (w <$> xs), b ++ (w <$> xs)).
Proof.
  revert a b. induction xs as [|x xs IH]; intros a b; simpl.
  - by rewrite !app_nil_r.
  - rewrite IH, <- !app_assoc. reflexivity.
Qed.

Lemma slice_window {A} (l : list A) (i : nat) :
  (i + 4 ≤ length l)%nat →
  slice l (Some (Z.of_nat i)) (Some (Z.of_nat i + 4)) = take 4 (drop i l).
Proof.
  intros Hi. unfold slice, clamp, Py.len. cbn [from_option].
  destruct (Z.ltb_spec (Z.of_nat i) 0) as [?|_]; [lia|].
  destruct (Z.ltb_spec (Z.of_nat i + 4) 0) as [?|_]; [lia|].
  rewrite !Z.min_l by lia.
  replace (Z.to_nat (Z.of_nat i + 4 - Z.of_nat i)) with 4%nat by lia.
  by rewrite Nat2Z.id.
Qed.

Lemma slices_windows (s : str) :
  (λ i, slice s (Some i) (Some (i + 4))) <$> range (Py.len s - 3)
  = windows s.
Proof.
  unfold range, seqZ, windows, Py.len.
  replace (Z.to_nat (Z.of_nat (length s) - 3)) with (length s - 3)%nat
    by lia.
  rewrite <- list_fmap_compose. apply list_fmap_ext.
  intros k i Hk. apply lookup_seq in Hk as [-> Hlt]. simpl.
  rewrite Z.add_0_r. apply slice_window. lia.
Qed.

Lemma windows_length (s : str) : length (windows s) = (length s - 3)%nat.
Proof. unfold windows. by rewrite length_fmap, length_seq. Qed.

Lemma windows_lookup (s : str) (i : nat) :
  (i < length s - 3)%nat → windows s !! i = Some (take 4 (drop i s)).
Proof.
  intros Hi. unfold windows. rewrite list_lookup_fmap, lookup_seq_lt by done.
  reflexivity.
Qed.

End PrimerFacts.

(** The second loop of [no_hairpin] on a non-empty list whose head
    [w0] is a window over the four bases.  Before the iteration at
    index [k] the list carries [k] copies of the complemented head in
    front of the original elements. *)
Section SecondLoop.

Variables (w0 : str) (rest : list str).
Hypothesis w0_dna : dna w0.

Local Abbreviation body :=
  (λ (l2 : list str) (i : Z),
     window ← getitem l2 i;
     c ← Primer.complement_window window;
     mret (list_insert i c l2)).

Local Abbreviation state k := (replicate k (pair <$> w0) ++ w0 :: rest).

(** Position [k] holds the head again. *)
Lemma head_found (k : nat) : getitem (state k) (Z.of_nat k) = Ok w0.
Proof.
  apply getitem_nat.
  rewrite lookup_app_r by (rewrite length_replicate; lia).
  by rewrite length_replicate, Nat.sub_diag.
Qed.

(** Inserting at [k] adds one more copy and replaces nothing. *)
Lemma copy_inserted (k : nat) :
  list_insert (Z.of_nat k) (pair <$> w0) (state k) = state (S k).
Proof.
  unfold list_insert, clamp, Py.len.
  destruct (Z.ltb_spec (Z.of_nat k) 0) as [?|_]; [lia|].
  rewrite Z.min_l by (rewrite length_app, length_replicate; lia).
  rewrite Nat2Z.id.
  rewrite take_app_length', drop_app_length'
    by (by rewrite length_replicate).
  by rewrite replicate_S_end, <- app_assoc.
Qed.

Lemma iteration (k : nat) : body (state k) (Z.of_nat k) = Ok (state (S k)).
Proof.
  cbv beta.
  rewrite head_found, bind_Ok, (complement_window_dna _ w0_dna), bind_Ok.
  by rewrite copy_inserted.
Qed.

Lemma second_loop (m k : nat) :
  for_each body ((λ i : nat, Z.of_nat i + 0) <$> List.seq k m) (state k)
  = Ok (state (k + m)).
Proof.
  revert k. induction m as [|m IH]; intros k.
  - simpl. by rewrite Nat.add_0_r.
  - cbn [List.seq fmap list_fmap for_each]. rewrite Z.add_0_r.
    rewrite iteration, bind_Ok.
    fold (@fmap list _ nat Z (λ i : nat, Z.of_nat i + 0)).
    rewrite (IH (S k)). by rewrite Nat.add_succ_r.
Qed.

End SecondLoop.

Section HairpinFacts.

(** What [no_hairpin] returns on a sequence over the four bases. *)
Lemma no_hairpin_dna (s : str) :
  dna s →
  Primer.no_hairpin s (Py.len s)
  = Ok (windows s,
        replicate (length (windows s)) (pair <$> take 4 s) ++ windows s).
Proof.
  intros Hs. unfold Primer.no_hairpin.
  rewrite first_loop, !app_nil_l, slices_windows.
  destruct (windows s) as [|w0 rest] eqn:Hws; [reflexivity|].
  assert (w0 = take 4 s) as ->.
  { assert (windows s !! 0%nat = Some w0) as H0 by (by rewrite Hws).
    pose proof (windows_length s) as Hl. rewrite Hws in Hl. simpl in Hl.
    rewrite windows_lookup in H0 by lia. by injection H0 as <-. }
  unfold range, seqZ, Py.len. rewrite Nat2Z.id.
  pose proof (second_loop (take 4 s) rest (Forall_take _ 4 _ Hs)
                (length (take 4 s :: rest)) 0) as Hloop.
  cbn [replicate app Nat.add] in Hloop. rewrite Hloop. reflexivity.
Qed.

(** On any sequence over the four bases the first list holds the L-3
    windows and the second list is twice as long. *)
Lemma no_hairpin_lengths (s : str) (l1 l2 : list str) :
  dna s →
  Primer.no_hairpin s (Py.len s) = Ok (l1, l2) →
  l1 = windows s ∧
  length l1 = (length s - 3)%nat ∧
  length l2 = (2 * (length s - 3))%nat.
Proof.
  intros Hs. rewrite (no_hairpin_dna s Hs). intros [= <- <-].
  rewrite length_app, length_replicate, windows_length. repeat split; lia.
Qed.

End HairpinFacts.

(** What a successful run of the constructor says about its result. *)
Lemma init_inv (s : str) (p : Primer.t) :
  Primer.__init__ s = Ok p →
  Primer.seq p = s ∧ Primer.len p = Py.len s ∧
  Primer.gc_content s (Py.len s) = Ok (Primer.gc p) ∧
  Primer.tm p = Primer.primer_tm s ∧
  Primer.min17 p = Primer.min_large_17 (Py.len s) ∧
  str_getitem s (-1) = Ok (Primer.end_ p) ∧
  Primer.primer_comp s = Ok (Primer.comp p).
Proof.
  unfold Primer.__init__. cbv zeta.
  destruct (Primer.gc_content s (Py.len s)) as [g|e]; [|done].
  rewrite bind_Ok.
  destruct (str_getitem s (-1)) as [l|e]; [|done]. rewrite bind_Ok.
  destruct (Primer.primer_comp s) as [c|e]; [|done]. rewrite bind_Ok.
  intros [= <-]. done.
Qed.

(** The temperature formula only yields even numbers, so two Primers
    that [__init__] built never differ by an odd amount. *)
Lemma primer_tm_even (s : str) : Z.even (Primer.primer_tm s) = true.
Proof.
  unfold Primer.primer_tm.
  replace (4 * (count s (lit "C") + count s (lit "G"))
           + 2 * (count s (lit "A") + count s (lit "T")))
    with (2 * (2 * (count s (lit "C") + count s (lit "G"))
               + (count s (lit "A") + count s (lit "T")))) by lia.
  apply Z.even_even.
Qed.

Lemma tm_difference_not_5 (s1 s2 : str) (p1 p2 : Primer.t) :
  Primer.__init__ s1 = Ok p1 → Primer.__init__ s2 = Ok p2 →
  Z.abs (Primer.tm p1 - Primer.tm p2) ≠ 5.
Proof.
  intros (_ & _ & _ & -> & _)%init_inv (_ & _ & _ & -> & _)%init_inv.
  pose proof (primer_tm_even s1) as H1. pose proof (primer_tm_even s2) as H2.
  apply Z.even_spec in H1 as [a ->]. apply Z.even_spec in H2 as [b ->].
  lia.
Qed.

(** The attribute lookup in [no_primer_dimer] fails whatever the two
    primers are. *)
Lemma no_primer_dimer_always_raises (primer_1 primer_2 : Primer.t) :
  Primer.no_primer_dimer primer_1 primer_2 = Raise (AttributeError a_comp).
Proof. reflexivity. Qed.

(** ** The claims *)

(** C1: on two primers built from sequences over the four bases of
    length at least 4, [no_primer_dimer] is claimed to return, without
    raising, whether at most two positions agree between the last four
    symbols of the first sequence and the last four of the second
    primer's complement.  On the primers built from AAAACCCC and
    TTTTGGGA the windows CCCC and AAAA agree nowhere, so the claimed
    answer is [true]; the method raises [AttributeError] instead,
    because it looks [comp] up on the string [primer_2.seq]. *)
Theorem no_primer_dimer_attribute_error :
  ∃ p1 p2,
    Primer.__init__ (lit "AAAACCCC") = Ok p1 ∧
    Primer.__init__ (lit "TTTTGGGA") = Ok p2 ∧
    Primer.no_primer_dimer p1 p2 = Raise (AttributeError a_comp) ∧
    no_primer_dimer_claimed p1 p2 = true.
Proof.
  do 2 eexists. split; [vm_compute; reflexivity|].
  split; [vm_compute; reflexivity|].
  split; [apply no_primer_dimer_always_raises|]. vm_compute. reflexivity.
Qed.

(** C2: [no_hairpin] is claimed to return two lists of L-3 windows, the
    second holding each window of the first complemented symbol by
    symbol.  On the primer built from ACGTA (L = 5) the first list is
    as claimed, but the second has four elements, not two: the
    complement of the first window twice, then the raw windows. *)
Theorem no_hairpin_second_list_ACGTA :
  ∃ p,
    Primer.__init__ (lit "ACGTA") = Ok p ∧
    Primer.no_hairpin (Primer.seq p) (Primer.len p)
    = Ok ([lit "ACGT"; lit "CGTA"],
          [lit "TGCA"; lit "TGCA"; lit "ACGT"; lit "CGTA"]) ∧
    no_hairpin_claimed (Primer.seq p)
    = ([lit "ACGT"; lit "CGTA"], [lit "TGCA"; lit "GCAT"]).
Proof.
  eexists. split; [vm_compute; reflexivity|].
  split; vm_compute; reflexivity.
Qed.

(** C3, as stated, fails: the primer built from GCGCATATGCGCATG does
    not have the announced attributes (its GC content is not
    100*10/15 and its melting temperature is not 50). *)
Lemma example_not_as_claimed :
  ∃ p,
    Primer.__init__ (lit "GCGCATATGCGCATG") = Ok p ∧
    ¬ example_as_claimed p ∧
    truediv (100 * 10) 15 ≠ Ok (Primer.gc p) ∧
    ¬ (F2Q (Primer.gc p) == 100 * 10 / 15)%Q ∧
    Primer.tm p ≠ 4 * 10 + 2 * 5.
Proof.
  eexists. split; [vm_compute; reflexivity|].
  split; [intros (_ & _ & Htm & _); vm_compute in Htm; discriminate|].
  split; [intros Hgc; vm_compute in Hgc; discriminate|].
  split; [intros Hgc; vm_compute in Hgc; discriminate|].
  intros Htm; vm_compute in Htm; discriminate.
Qed.

(** C3, amended: GCGCATATGCGCATG has length 15 and holds nine G or C
    and six A or T, so the primer built from it has [min17] false, GC
    content 100*9/15, which is the float 60.0 exactly, melting
    temperature 4*9 + 2*6 = 48 and terminal base G. *)
Theorem example_primer :
  ∃ p,
    Primer.__init__ (lit "GCGCATATGCGCATG") = Ok p ∧
    Primer.len p = 15 ∧
    occ "G" (Primer.seq p) + occ "C" (Primer.seq p) = 9 ∧
    occ "A" (Primer.seq p) + occ "T" (Primer.seq p) = 6 ∧
    Primer.min17 p = false ∧
    truediv (100 * 9) 15 = Ok (Primer.gc p) ∧
    (F2Q (Primer.gc p) == 100 * 9 / 15)%Q ∧ (F2Q (Primer.gc p) == 60)%Q ∧
    Primer.tm p = 4 * 9 + 2 * 6 ∧ Primer.tm p = 48 ∧
    Primer.end_ p = lit "G".
Proof.
  eexists. split; [vm_compute; reflexivity|].
  repeat split; vm_compute; reflexivity.
Qed.

(** C4: constructing a Primer from the empty sequence fails inside
    [__init__]: the division in [gc_content] raises
    [ZeroDivisionError], so no Primer object (with whatever GC
    content) comes out. *)
Theorem init_empty_raises :
  Primer.gc_content [] (Py.len (@nil ascii)) = Raise ZeroDivisionError ∧
  Primer.__init__ [] = Raise ZeroDivisionError ∧
  ¬ returns (Primer.__init__ []).
Proof.
  split; [reflexivity|]. split; [reflexivity|].
  intros [p Hp]. change (Primer.__init__ []) with
    (@Raise Primer.t ZeroDivisionError) in Hp. discriminate.
Qed.

(** C5: for every sequence over the four bases, [primer_comp]
    succeeds, succeeds again on its own output, and the second output
    is the sequence one started from. *)
Theorem primer_comp_twice (s : str) :
  dna s →
  ∃ c, Primer.primer_comp s = Ok c ∧ Primer.primer_comp c = Ok s.
Proof.
  intros Hs. exists (reverse (pair <$> s)).
  split; [by apply primer_comp_dna|].
  rewrite primer_comp_dna.
  - rewrite fmap_reverse, reverse_involutive, <- list_fmap_compose.
    f_equal. rewrite <- (list_fmap_id s) at 2.
    apply list_fmap_ext. intros _ c _. apply pair_involutive.
  - apply Forall_reverse, Forall_fmap.
    eapply Forall_impl; [exact Hs|]. apply pair_nucleotide.
Qed.

Lemma primer_comp_twice_witness :
  dna (lit "GATTACA") ∧
  ∃ c, Primer.primer_comp (lit "GATTACA") = Ok c ∧
       Primer.primer_comp c = Ok (lit "GATTACA").
Proof.
  assert (dna (lit "GATTACA")) as H by (repeat constructor).
  split; [exact H|]. exact (primer_comp_twice (lit "GATTACA") H).
Defined.

(** C6: for every non-empty sequence over the four bases the
    constructor succeeds and the GC content of the Primer is the float
    that [100 * (number of G + number of C) / length] evaluates to: the
    binary64 value nearest to that quotient, within 2^-47 of it, and
    between 0 and 100. *)
Theorem gc_content_formula (s : str) :
  s ≠ [] → dna s →
  ∃ p,
    Primer.__init__ s = Ok p ∧
    truediv (100 * (occ "G" s + occ "C" s)) (Py.len s)
    = Ok (Primer.gc p) ∧
    (Qabs (F2Q (Primer.gc p)
           - 100 * inject_Z (occ "G" s + occ "C" s) / inject_Z (Py.len s))
     <= 1 # 2 ^ 47)%Q ∧
    (0 <= F2Q (Primer.gc p))%Q ∧ (F2Q (Primer.gc p) <= 100)%Q.
Proof.
  intros Hne Hs. destruct (nonempty_snoc s Hne) as (s' & c & ->).
  eexists. split; [by apply init_dna|]. cbn [Primer.gc].
  pose proof (occ_GC_bounds (s' ++ [c])) as [Hlo Hhi].
  assert (0 < Py.len (s' ++ [c])) as Hpos
    by (unfold Py.len; rewrite length_app; simpl; lia).
  set (k := occ "G" (s' ++ [c]) + occ "C" (s' ++ [c])) in *.
  set (n := Py.len (s' ++ [c])) in *.
  destruct (truediv_percent (100 * k) n ltac:(lia) Hpos) as (Ht & _ & Hu).
  pose proof (ulps_percent (100 * k) n ltac:(lia) Hpos) as Hb.
  split; [exact Ht|]. split.
  - change 100%Q with (inject_Z 100) at 1.
    rewrite <- (inject_Z_mult 100 k).
    apply div64_error; [lia|done].
  - apply (F2Q_bounds _ 0 100). rewrite Hu. lia.
Qed.

Lemma gc_content_formula_witness :
  lit "GATTACA" ≠ [] ∧ dna (lit "GATTACA") ∧
  ∃ p,
    Primer.__init__ (lit "GATTACA") = Ok p ∧
    Primer.gc p = S754_finite false 8042142191733029 (-48) ∧
    truediv (100 * 2) 7 = Ok (Primer.gc p) ∧
    (Qabs (F2Q (Primer.gc p) - 100 * inject_Z 2 / inject_Z 7)
     <= 1 # 2 ^ 47)%Q ∧
    (0 <= F2Q (Primer.gc p))%Q ∧ (F2Q (Primer.gc p) <= 100)%Q.
Proof.
  assert (lit "GATTACA" ≠ []) as Hne by discriminate.
  assert (dna (lit "GATTACA")) as H by (repeat constructor).
  split; [exact Hne|]. split; [exact H|].
  destruct (gc_content_formula (lit "GATTACA") Hne H)
    as (p & Hp & Ht & Herr & Hlo & Hhi).
  exists p. split; [exact Hp|]. split.
  { vm_compute in Hp. by injection Hp as <-. }
  split; [exact Ht|]. split; [exact Herr|]. split; [exact Hlo|exact Hhi].
Defined.

(** C7: for every sequence, [primer_tm] is the integer
    4 * (number of G + number of C) + 2 * (number of A + number of T),
    and that integer is the melting temperature of any Primer built
    from the sequence. *)
Theorem melting_temperature_formula (s : str) :
  Primer.primer_tm s
  = 4 * (occ "G" s + occ "C" s) + 2 * (occ "A" s + occ "T" s) ∧
  ∀ p, Primer.__init__ s = Ok p →
       Primer.tm p
       = 4 * (occ "G" s + occ "C" s) + 2 * (occ "A" s + occ "T" s).
Proof.
  assert (Primer.primer_tm s
          = 4 * (occ "G" s + occ "C" s) + 2 * (occ "A" s + occ "T" s))
    as Htm.
  { unfold Primer.primer_tm, lit. cbn [list_ascii_of_string].
    rewrite !count_single. lia. }
  split; [exact Htm|]. intros p Hp.
  apply init_inv in Hp as (_ & _ & _ & -> & _). exact Htm.
Qed.

Lemma melting_temperature_formula_witness :
  Primer.primer_tm (lit "GATTACA") = 4 * (1 + 1) + 2 * (3 + 2) ∧
  ∃ p, Primer.__init__ (lit "GATTACA") = Ok p ∧ Primer.tm p = 18.
Proof.
  split; [exact (proj1 (melting_temperature_formula (lit "GATTACA")))|].
  eexists. split; [vm_compute; reflexivity|].
  refine (proj2 (melting_temperature_formula (lit "GATTACA")) _ _).
  vm_compute. reflexivity.
Defined.

(** C8: [anneling_temperature_check] is true exactly when the two
    melting temperatures differ by at most 5 in absolute value; it is
    true when they differ by exactly 5 and false when they differ by
    exactly 6. *)
Theorem anneling_temperature_check_spec (p1 p2 : Primer.t) :
  (Primer.anneling_temperature_check p1 p2 = true
   ↔ Z.abs (Primer.tm p1 - Primer.tm p2) ≤ 5) ∧
  (Z.abs (Primer.tm p1 - Primer.tm p2) = 5 →
   Primer.anneling_temperature_check p1 p2 = true) ∧
  (Z.abs (Primer.tm p1 - Primer.tm p2) = 6 →
   Primer.anneling_temperature_check p1 p2 = false).
Proof.
  unfold Primer.anneling_temperature_check.
  split; [apply Z.leb_le|]. split; intros H; rewrite H; reflexivity.
Qed.

(** The specification's boundary example: 55 against 60, and 55
    against 61. *)
Lemma anneling_temperature_check_witness :
  Primer.anneling_temperature_check (with_tm 55) (with_tm 60) = true ∧
  Primer.anneling_temperature_check (with_tm 55) (with_tm 61) = false.
Proof.
  split.
  - apply (proj1 (proj2 (anneling_temperature_check_spec
                           (with_tm 55) (with_tm 60)))).
    reflexivity.
  - apply (proj2 (proj2 (anneling_temperature_check_spec
                           (with_tm 55) (with_tm 61)))).
    reflexivity.
Defined.

(** C9: for every non-empty sequence holding a symbol outside the four
    bases the constructor itself fails: [primer_comp], called from
    [__init__], raises [KeyError] on the first such symbol, so no
    Primer object is ever built from the sequence. *)
Theorem init_invalid_symbol (s : str) :
  s ≠ [] → ¬ dna s →
  ∃ c, c ∈ s ∧ ¬ nucleotide c ∧
       Primer.__init__ s = Raise (KeyError [c]).
Proof.
  intros Hne Hs.
  destruct (comprehension_not_dna s Hs) as (c & Hin & Hc & Hm).
  exists c. split; [done|]. split; [done|].
  destruct (nonempty_snoc s Hne) as (s' & x & ->).
  unfold Primer.__init__. cbv zeta.
  rewrite gc_content_nonempty by done.
  rewrite bind_Ok, str_getitem_last, bind_Ok.
  unfold Primer.primer_comp. rewrite Hm. reflexivity.
Qed.

Lemma init_invalid_symbol_witness :
  lit "ACNGT" ≠ [] ∧ ¬ dna (lit "ACNGT") ∧
  ∃ c, c ∈ lit "ACNGT" ∧ ¬ nucleotide c ∧
       Primer.__init__ (lit "ACNGT") = Raise (KeyError [c]).
Proof.
  assert (lit "ACNGT" ≠ []) as Hne by discriminate.
  assert (¬ dna (lit "ACNGT")) as H.
  { intros Hd. apply Forall_cons in Hd as [_ Hd].
    apply Forall_cons in Hd as [_ Hd].
    apply Forall_cons in Hd as [Hd _].
    apply nucleotide_cases in Hd.
    destruct Hd as [Hd|[Hd|[Hd|Hd]]]; discriminate Hd. }
  split; [exact Hne|]. split; [exact H|].
  exact (init_invalid_symbol (lit "ACNGT") Hne H).
Defined.

(** C10: each of [gc_content_test], [anneling_temperature_check] and
    [is_end_g_or_c] gives the same answer on (p1, p2) and on
    (p2, p1). *)
Theorem pairwise_checks_symmetric (p1 p2 : Primer.t) :
  Primer.gc_content_test p1 p2 = Primer.gc_content_test p2 p1 ∧
  Primer.anneling_temperature_check p1 p2
  = Primer.anneling_temperature_check p2 p1 ∧
  Primer.is_end_g_or_c p1 p2 = Primer.is_end_g_or_c p2 p1.
Proof.
  unfold Primer.gc_content_test, Primer.anneling_temperature_check,
    Primer.is_end_g_or_c.
  split; [apply andb_comm|]. split; [|apply andb_comm].
  f_equal. lia.
Qed.

(** ** Further facts about the constructor *)

Section Counting.

Lemma pair_swap (c d : ascii) : pair d = c ↔ d = pair c.
Proof.
  split; [intros <-|intros ->]; by rewrite pair_involutive.
Qed.

Lemma occ_reverse (c : ascii) (s : str) : occ c (reverse s) = occ c s.
Proof. unfold occ. by rewrite filter_reverse, length_reverse. Qed.

(** Complementing a sequence moves the count of a base to its
    partner. *)
Lemma occ_pair (c : ascii) (s : str) : occ c (pair <$> s) = occ (pair c) s.
Proof.
  unfold occ. f_equal. induction s as [|d s IH]; [done|].
  rewrite fmap_cons, !filter_cons.
  destruct (decide (pair d = c)) as [Hc|Hc].
  - rewrite decide_True by by apply pair_swap. cbn [length]. by rewrite IH.
  - rewrite decide_False by (by rewrite <- pair_swap). done.
Qed.

(** The four counts never exceed the length, and exhaust it on a
    sequence over the four bases. *)
Lemma occ_total_le (s : str) :
  occ "A" s + occ "T" s + occ "C" s + occ "G" s ≤ Py.len s.
Proof.
  unfold occ, Py.len. induction s as [|c s IH]; [done|].
  rewrite !filter_cons.
  repeat case_decide; subst; try discriminate; cbn [length]; lia.
Qed.

Lemma occ_total_dna (s : str) :
  dna s → occ "A" s + occ "T" s + occ "C" s + occ "G" s = Py.len s.
Proof.
  unfold occ, Py.len. induction 1 as [|c s Hc _ IH]; [done|].
  rewrite !filter_cons. apply nucleotide_cases in Hc.
  destruct Hc as [-> | [-> | [-> | ->]]];
    repeat case_decide; try done; cbn [length]; lia.
Qed.

Lemma occ_nonneg (c : ascii) (s : str) : 0 ≤ occ c s.
Proof. unfold occ. lia. Qed.

Lemma primer_tm_occ (s : str) :
  Primer.primer_tm s
  = 4 * (occ "G" s + occ "C" s) + 2 * (occ "A" s + occ "T" s).
Proof.
  unfold Primer.primer_tm, lit. cbn [list_ascii_of_string].
  rewrite !count_single. lia.
Qed.

End Counting.

Section Constructor.

(** A step of [__init__] that fails after the first two make the
    constructor fail the same way. *)
Lemma init_raise_of_comp (s : str) (e : exn) :
  s ≠ [] → Primer.primer_comp s = Raise e → Primer.__init__ s = Raise e.
Proof.
  intros Hne He. destruct (nonempty_snoc s Hne) as (s' & x & ->).
  unfold Primer.__init__. cbv zeta.
  rewrite gc_content_nonempty by done.
  by rewrite bind_Ok, str_getitem_last, bind_Ok, He.
Qed.

(** Everything a successful construction fixes. *)
Lemma init_fields (s : str) (p : Primer.t) :
  Primer.__init__ s = Ok p →
  dna s ∧
  ∃ s' c, s = s' ++ [c] ∧
    p = {| Primer.seq := s;
           Primer.len := Py.len s;
           Primer.gc :=
             div64 (100 * (occ "G" s + occ "C" s)) (Py.len s);
           Primer.tm := Primer.primer_tm s;
           Primer.min17 := Primer.min_large_17 (Py.len s);
           Primer.end_ := [c];
           Primer.comp := reverse (pair <$> s) |}.
Proof.
  intros Hp.
  assert (s ≠ []) as Hne by (intros ->; discriminate Hp).
  assert (dna s) as Hs.
  { destruct (decide (dna s)) as [Hs|Hs]; [done|].
    destruct (comprehension_not_dna s Hs) as (c & _ & _ & Hm).
    rewrite (init_raise_of_comp s (KeyError [c]) Hne) in Hp;
      [discriminate|].
    unfold Primer.primer_comp. by rewrite Hm. }
  split; [done|].
  destruct (nonempty_snoc s Hne) as (s' & c & ->).
  exists s', c. split; [done|].
  rewrite (init_dna s' c Hs) in Hp. by injection Hp as <-.
Qed.

Lemma init_len_pos (s : str) (p : Primer.t) :
  Primer.__init__ s = Ok p → 0 < Py.len s.
Proof.
  intros Hp. apply init_fields in Hp as (_ & s' & c & -> & _).
  unfold Py.len. rewrite length_app. simpl. lia.
Qed.

End Constructor.

Section ConstructorShape.

Lemma revcomp_involutive (s : str) :
  reverse (pair <$> reverse (pair <$> s)) = s.
Proof.
  rewrite fmap_reverse, reverse_involutive, <- list_fmap_compose.
  rewrite <- (list_fmap_id s) at 2.
  apply list_fmap_ext. intros _ c _. apply pair_involutive.
Qed.

Lemma revcomp_dna (s : str) : dna s → dna (reverse (pair <$> s)).
Proof.
  intros Hs. apply Forall_reverse, Forall_fmap.
  eapply Forall_impl; [exact Hs|]. apply pair_nucleotide.
Qed.

(** The object built from a non-empty sequence over the four bases,
    with the terminal base read through [last]. *)
Lemma init_dna_last (s : str) :
  s ≠ [] → dna s →
  ∃ c, last s = Some c ∧
    Primer.__init__ s
    = Ok {| Primer.seq := s;
            Primer.len := Py.len s;
            Primer.gc :=
              div64 (100 * (occ "G" s + occ "C" s)) (Py.len s);
            Primer.tm := Primer.primer_tm s;
            Primer.min17 := Primer.min_large_17 (Py.len s);
            Primer.end_ := [c];
            Primer.comp := reverse (pair <$> s) |}.
Proof.
  intros Hne Hs. destruct (nonempty_snoc s Hne) as (s' & c & ->).
  exists c. split; [apply last_snoc|]. by apply init_dna.
Qed.

Lemma tuple_contains_GC (c : ascii) :
  tuple_contains [lit "G"; lit "C"] [c] = true
  ↔ c = "G"%char ∨ c = "C"%char.
Proof.
  unfold tuple_contains, lit. cbn [existsb list_ascii_of_string].
  rewrite !orb_true_iff, !bool_decide_eq_true. split.
  - intros [[= ->] | [[= ->] | ?]]; [by left|by right|done].
  - intros [-> | ->]; [by left|by right; left].
Qed.

Lemma windows_width (s : str) : Forall (λ w, length w = 4%nat) (windows s).
Proof.
  apply Forall_lookup. intros i w Hw.
  assert (i < length (windows s))%nat as Hi by (by eapply lookup_lt_Some).
  rewrite windows_length in Hi.
  rewrite windows_lookup in Hw by done. injection Hw as <-.
  rewrite length_take, length_drop. lia.
Qed.

End ConstructorShape.

(** ** Properties beyond the claims *)

(** X1: the constructor returns a Primer exactly for the non-empty
    sequences over the four bases; on every other string it raises. *)
Theorem init_returns_iff (s : str) :
  returns (Primer.__init__ s) ↔ s ≠ [] ∧ dna s.
Proof.
  split.
  - intros [p Hp]. apply init_fields in Hp as (Hs & s' & c & -> & _).
    split; [by destruct s'|done].
  - intros [Hne Hs]. destruct (init_dna_last s Hne Hs) as (c & _ & Hp).
    eexists. exact Hp.
Qed.

(** X2: what every constructed Primer satisfies: [seq] is the input,
    [len] is its positive length, [comp] is a sequence over the four
    bases of the same length, [min17] tells whether the length is at
    least 17, and [end] is the one-character string holding the last
    symbol, whose partner is the first symbol of [comp]. *)
Theorem init_invariants (s : str) (p : Primer.t) :
  Primer.__init__ s = Ok p →
  Primer.seq p = s ∧
  Primer.len p = Z.of_nat (length s) ∧
  0 < Primer.len p ∧
  length (Primer.comp p) = length (Primer.seq p) ∧
  dna (Primer.comp p) ∧
  (Primer.min17 p = true ↔ (17 ≤ length s)%nat) ∧
  ∃ c, Primer.end_ p = [c] ∧ last s = Some c ∧
       head (Primer.comp p) = Some (pair c).
Proof.
  intros Hp. apply init_fields in Hp as (Hs & s' & c & Hsnoc & ->).
  cbn [Primer.seq Primer.len Primer.comp Primer.min17 Primer.end_].
  split; [done|]. split; [done|].
  split; [subst s; unfold Py.len; rewrite length_app; simpl; lia|].
  split; [by rewrite length_reverse, length_fmap|].
  split; [by apply revcomp_dna|].
  split.
  { unfold Primer.min_large_17, Py.len. rewrite Z.leb_le. lia. }
  exists c. split; [done|]. subst s. split; [apply last_snoc|].
  by rewrite fmap_app, reverse_app.
Qed.

Lemma init_invariants_witness :
  ∃ p,
    Primer.__init__ (lit "GATTACAGATTACAGATTACA") = Ok p ∧
    Primer.len p = 21 ∧ Primer.min17 p = true ∧
    Primer.end_ p = lit "A" ∧
    head (Primer.comp p) = Some "T"%char.
Proof.
  eexists. split; [vm_compute; reflexivity|].
  pose proof (init_invariants (lit "GATTACAGATTACAGATTACA") _
                ltac:(vm_compute; reflexivity))
    as (_ & Hlen & _ & _ & _ & Hmin & c & Hend & Hlast & Hhead).
  injection Hlast as <-.
  split; [exact Hlen|]. split; [apply Hmin; simpl; lia|].
  split; [exact Hend|exact Hhead].
Defined.

(** X3: [primer_tm] lies between 0 and four times the length on any
    string, symbols outside the four bases adding nothing; on a
    constructed Primer it is twice the length plus twice the number of
    G and C, hence between twice and four times the length. *)
Theorem tm_bounds (s : str) :
  0 ≤ Primer.primer_tm s ≤ 4 * Py.len s ∧
  ∀ p, Primer.__init__ s = Ok p →
       Primer.tm p = 2 * Primer.len p + 2 * (occ "G" s + occ "C" s) ∧
       2 * Primer.len p ≤ Primer.tm p ≤ 4 * Primer.len p.
Proof.
  pose proof (occ_total_le s) as Hle.
  pose proof (occ_nonneg "A" s). pose proof (occ_nonneg "T" s).
  pose proof (occ_nonneg "C" s). pose proof (occ_nonneg "G" s).
  split; [rewrite primer_tm_occ; lia|].
  intros p Hp. apply init_fields in Hp as (Hs & s' & c & _ & ->).
  cbn [Primer.tm Primer.len]. rewrite primer_tm_occ.
  pose proof (occ_total_dna s Hs). lia.
Qed.

Lemma tm_bounds_witness :
  0 ≤ Primer.primer_tm (lit "GATNNACA") ≤ 4 * 8 ∧
  ∃ p, Primer.__init__ (lit "GATTACA") = Ok p ∧
       Primer.tm p = 2 * 7 + 2 * (1 + 1) ∧
       2 * 7 ≤ Primer.tm p ≤ 4 * 7.
Proof.
  split; [exact (proj1 (tm_bounds (lit "GATNNACA")))|].
  eexists. split; [vm_compute; reflexivity|].
  refine (proj2 (tm_bounds (lit "GATTACA")) _ _).
  vm_compute. reflexivity.
Defined.

(** The pairwise test on one constructed Primer. *)
Lemma gc_at_least_50 (s : str) (p : Primer.t) :
  Primer.__init__ s = Ok p →
  float_ge_int (Primer.gc p) 50
  = (50 * 2 ^ 1074 <=? ulps (100 * (occ "G" s + occ "C" s)) (Py.len s)).
Proof.
  intros Hp. pose proof (init_len_pos s p Hp) as Hpos.
  apply init_fields in Hp as (_ & s' & c & _ & ->). cbn [Primer.gc].
  pose proof (occ_GC_bounds s) as Hk.
  destruct (truediv_percent (100 * (occ "G" s + occ "C" s)) (Py.len s)
              ltac:(lia) Hpos) as (_ & Hf & Hu).
  by rewrite (finite_ge _ _ Hf), Hu.
Qed.

(** X4: on two constructed Primers [gc_content_test] is true whenever,
    in each sequence, at least half of the symbols are G or C; and for
    sequences of at most 50 * 2^47 symbols it is true only then.  (On
    longer sequences a quotient just below 50 can round up to 50.0.) *)
Theorem gc_content_test_iff (s1 s2 : str) (p1 p2 : Primer.t) :
  Primer.__init__ s1 = Ok p1 → Primer.__init__ s2 = Ok p2 →
  (Py.len s1 ≤ 2 * (occ "G" s1 + occ "C" s1)
   ∧ Py.len s2 ≤ 2 * (occ "G" s2 + occ "C" s2) →
   Primer.gc_content_test p1 p2 = true) ∧
  (Py.len s1 ≤ 50 * 2 ^ 47 → Py.len s2 ≤ 50 * 2 ^ 47 →
   Primer.gc_content_test p1 p2 = true →
   Py.len s1 ≤ 2 * (occ "G" s1 + occ "C" s1)
   ∧ Py.len s2 ≤ 2 * (occ "G" s2 + occ "C" s2)).
Proof.
  intros H1 H2.
  pose proof (init_len_pos s1 p1 H1) as Hp1.
  pose proof (init_len_pos s2 p2 H2) as Hp2.
  pose proof (occ_GC_bounds s1) as Hk1. pose proof (occ_GC_bounds s2) as Hk2.
  unfold Primer.gc_content_test.
  rewrite (gc_at_least_50 s1 p1 H1), (gc_at_least_50 s2 p2 H2).
  rewrite andb_true_iff, !Z.leb_le.
  destruct (percent_ge_50 (occ "G" s1 + occ "C" s1) (Py.len s1)
              ltac:(lia) Hp1) as [Hi1 Ho1].
  destruct (percent_ge_50 (occ "G" s2 + occ "C" s2) (Py.len s2)
              ltac:(lia) Hp2) as [Hi2 Ho2].
  split.
  - intros [? ?]. split; [by apply Hi1|by apply Hi2].
  - intros Hs1 Hs2 [? ?]. split; [by apply Ho1|by apply Ho2].
Qed.

Lemma gc_content_test_iff_witness :
  ∃ p1 p2,
    Primer.__init__ (lit "GCAT") = Ok p1 ∧
    Primer.__init__ (lit "GATTACA") = Ok p2 ∧
    Primer.gc_content_test p1 p1 = true ∧
    Primer.gc_content_test p1 p2 = false.
Proof.
  do 2 eexists. split; [vm_compute; reflexivity|].
  split; [vm_compute; reflexivity|]. split.
  - apply (gc_content_test_iff (lit "GCAT") (lit "GCAT"));
      [vm_compute; reflexivity..|]. vm_compute. by split.
  - apply not_true_is_false. intros H.
    apply (gc_content_test_iff (lit "GCAT") (lit "GATTACA")) in H as [_ H];
      [|vm_compute; reflexivity| vm_compute; reflexivity
       | vm_compute; discriminate | vm_compute; discriminate].
    vm_compute in H. by apply H.
Defined.

(** X5: on two constructed Primers [is_end_g_or_c] is true exactly
    when the last symbol of each sequence is G or C. *)
Theorem is_end_g_or_c_iff (s1 s2 : str) (p1 p2 : Primer.t) :
  Primer.__init__ s1 = Ok p1 → Primer.__init__ s2 = Ok p2 →
  (Primer.is_end_g_or_c p1 p2 = true
   ↔ (last s1 = Some "G"%char ∨ last s1 = Some "C"%char)
     ∧ (last s2 = Some "G"%char ∨ last s2 = Some "C"%char)).
Proof.
  intros H1 H2.
  apply init_fields in H1 as (_ & s1' & c1 & -> & ->).
  apply init_fields in H2 as (_ & s2' & c2 & -> & ->).
  unfold Primer.is_end_g_or_c. cbn [Primer.end_].
  rewrite !last_snoc, andb_true_iff, !tuple_contains_GC.
  split; (intros [[?|?] [?|?]]; split; simplify_eq; auto).
Qed.

Lemma is_end_g_or_c_iff_witness :
  ∃ p1 p2,
    Primer.__init__ (lit "ATTAG") = Ok p1 ∧
    Primer.__init__ (lit "GCA") = Ok p2 ∧
    Primer.is_end_g_or_c p1 p1 = true ∧
    Primer.is_end_g_or_c p1 p2 = false.
Proof.
  do 2 eexists. split; [vm_compute; reflexivity|].
  split; [vm_compute; reflexivity|]. split.
  - apply (is_end_g_or_c_iff (lit "ATTAG") (lit "ATTAG"));
      [vm_compute; reflexivity..|]. split; by left.
  - apply not_true_is_false. intros H.
    apply (is_end_g_or_c_iff (lit "ATTAG") (lit "GCA")) in H as [_ H];
      [|vm_compute; reflexivity..].
    destruct H as [H|H]; discriminate H.
Defined.

(** X6: the complement of a constructed Primer is itself a valid
    input; the Primer built from it has the original sequence as its
    complement and the same length, melting temperature, GC content
    (the same float) and [min17], so the two always pass the annealing
    check. *)
Theorem reverse_complement_primer (s : str) (p : Primer.t) :
  Primer.__init__ s = Ok p →
  ∃ p',
    Primer.__init__ (Primer.comp p) = Ok p' ∧
    Primer.comp p' = Primer.seq p ∧
    Primer.len p' = Primer.len p ∧
    Primer.tm p' = Primer.tm p ∧
    Primer.gc p' = Primer.gc p ∧
    Primer.min17 p' = Primer.min17 p ∧
    Primer.anneling_temperature_check p p' = true.
Proof.
  intros Hp. apply init_fields in Hp as (Hs & s' & c & Hsnoc & ->).
  cbn [Primer.comp Primer.seq Primer.len Primer.tm Primer.gc Primer.min17].
  set (r := reverse (pair <$> s)).
  assert (length r = length s) as Hlen
    by (unfold r; by rewrite length_reverse, length_fmap).
  assert (r ≠ []) as Hne.
  { intros E. rewrite E in Hlen. subst s. rewrite length_app in Hlen.
    simpl in Hlen. lia. }
  destruct (init_dna_last r Hne (revcomp_dna s Hs)) as (x & _ & Hr).
  assert (Py.len r = Py.len s) as HL by (unfold Py.len; by rewrite Hlen).
  assert (occ "G" r = occ "C" s ∧ occ "C" r = occ "G" s ∧
          occ "A" r = occ "T" s ∧ occ "T" r = occ "A" s)
    as (HG & HC & HA & HT)
    by (unfold r; rewrite !occ_reverse, !occ_pair; done).
  assert (Primer.primer_tm r = Primer.primer_tm s) as Htm
    by (rewrite !primer_tm_occ, HG, HC, HA, HT; lia).
  eexists. split; [exact Hr|].
  cbn [Primer.comp Primer.seq Primer.len Primer.tm Primer.gc Primer.min17].
  split; [apply revcomp_involutive|]. split; [done|]. split; [done|].
  split.
  { by rewrite HL, HG, HC, (Z.add_comm (occ "C" s)). }
  split; [by rewrite HL|].
  unfold Primer.anneling_temperature_check. cbn [Primer.tm].
  rewrite Htm, Z.sub_diag. reflexivity.
Qed.

Lemma reverse_complement_primer_witness :
  ∃ p p',
    Primer.__init__ (lit "GATTACA") = Ok p ∧
    Primer.__init__ (lit "TGTAATC") = Ok p' ∧
    Primer.comp p' = lit "GATTACA" ∧
    Primer.tm p' = Primer.tm p.
Proof.
  eexists.
  destruct (reverse_complement_primer (lit "GATTACA") _
              ltac:(vm_compute; reflexivity))
    as (p' & Hp' & Hc & _ & Htm & _).
  exists p'. split; [vm_compute; reflexivity|].
  split; [exact Hp'|]. split; [exact Hc|exact Htm].
Defined.

(** X7: two constructed Primers pass [anneling_temperature_check]
    exactly when their melting temperatures differ by at most 4: the
    temperatures are even, so the bound 5 is only reached at 4. *)
Theorem anneling_temperature_check_constructed
  (s1 s2 : str) (p1 p2 : Primer.t) :
  Primer.__init__ s1 = Ok p1 → Primer.__init__ s2 = Ok p2 →
  (Primer.anneling_temperature_check p1 p2 = true
   ↔ Z.abs (Primer.tm p1 - Primer.tm p2) ≤ 4).
Proof.
  intros H1 H2. pose proof (tm_difference_not_5 s1 s2 p1 p2 H1 H2).
  unfold Primer.anneling_temperature_check. rewrite Z.leb_le. lia.
Qed.

Lemma anneling_temperature_check_constructed_witness :
  ∃ p1 p2 p3,
    Primer.__init__ (lit "GATTACA") = Ok p1 ∧
    Primer.__init__ (lit "GATTACAGC") = Ok p2 ∧
    Primer.__init__ (lit "GATTAC") = Ok p3 ∧
    Primer.tm p1 = 18 ∧ Primer.tm p2 = 26 ∧ Primer.tm p3 = 16 ∧
    Primer.anneling_temperature_check p1 p3 = true ∧
    Primer.anneling_temperature_check p1 p2 = false.
Proof.
  do 3 eexists. split; [vm_compute; reflexivity|].
  split; [vm_compute; reflexivity|]. split; [vm_compute; reflexivity|].
  split; [reflexivity|]. split; [reflexivity|]. split; [reflexivity|].
  split.
  - apply (anneling_temperature_check_constructed
             (lit "GATTACA") (lit "GATTAC"));
      [vm_compute; reflexivity..|]. vm_compute. discriminate.
  - apply not_true_is_false. intros H.
    apply (anneling_temperature_check_constructed
             (lit "GATTACA") (lit "GATTACAGC")) in H;
      [|vm_compute; reflexivity..].
    vm_compute in H. by apply H.
Defined.

(** The comprehension stops at the leftmost key the dictionary lacks. *)
Lemma comprehension_leftmost (pre post : str) (c : ascii) :
  dna pre → ¬ nucleotide c →
  mapM (dict_getitem Primer.complement_dict) (iter (pre ++ c :: post))
  = Raise (KeyError [c]).
Proof.
  intros Hpre Hc. induction Hpre as [|d pre Hd _ IH].
  - cbn [app iter fmap list_fmap mapM].
    by rewrite (complement_dict_other c Hc).
  - cbn [app iter fmap list_fmap mapM]. fold (iter (pre ++ c :: post)).
    by rewrite (complement_dict_nucleotide d Hd), bind_Ok, IH.
Qed.

(** X8: when a sequence holds symbols outside the four bases,
    [primer_comp] and the constructor raise [KeyError] for the
    leftmost of them, whatever follows it. *)
Theorem key_error_leftmost (pre post : str) (c : ascii) :
  dna pre → ¬ nucleotide c →
  Primer.primer_comp (pre ++ c :: post) = Raise (KeyError [c]) ∧
  Primer.__init__ (pre ++ c :: post) = Raise (KeyError [c]).
Proof.
  intros Hpre Hc.
  assert (Primer.primer_comp (pre ++ c :: post) = Raise (KeyError [c]))
    as Hcomp.
  { unfold Primer.primer_comp.
    by rewrite (comprehension_leftmost pre post c Hpre Hc). }
  split; [exact Hcomp|].
  apply init_raise_of_comp; [by destruct pre|exact Hcomp].
Qed.

Lemma key_error_leftmost_witness :
  Primer.primer_comp (lit "ACnGTxA") = Raise (KeyError (lit "n")) ∧
  Primer.__init__ (lit "ACnGTxA") = Raise (KeyError (lit "n")).
Proof.
  apply (key_error_leftmost (lit "AC") (lit "GTxA") "n"%char).
  - repeat constructor.
  - intros H. apply nucleotide_cases in H.
    destruct H as [H|[H|[H|H]]]; discriminate H.
Defined.

(** X9: on a sequence over the four bases [primer_comp] returns a
    string of the same length whose symbol at position [i] is the
    partner of the symbol at position [i] counted from the end. *)
Theorem primer_comp_lookup (s : str) :
  dna s →
  ∃ r, Primer.primer_comp s = Ok r ∧
       length r = length s ∧
       ∀ i, (i < length s)%nat →
            r !! i = pair <$> s !! (length s - S i)%nat.
Proof.
  intros Hs. exists (reverse (pair <$> s)).
  split; [by apply primer_comp_dna|].
  split; [by rewrite length_reverse, length_fmap|].
  intros i Hi. rewrite reverse_lookup by (by rewrite length_fmap).
  by rewrite length_fmap, list_lookup_fmap.
Qed.

Lemma primer_comp_lookup_witness :
  ∃ r, Primer.primer_comp (lit "GATTACA") = Ok r ∧
       length r = 7%nat ∧
       r !! 1%nat = Some "G"%char.
Proof.
  destruct (primer_comp_lookup (lit "GATTACA") ltac:(repeat constructor))
    as (r & Hr & Hlen & Hi).
  exists r. split; [exact Hr|]. split; [exact Hlen|].
  apply (Hi 1%nat). simpl. lia.
Defined.

(** X10: on a constructed Primer [no_hairpin] never raises.  Its first
    list holds the L-3 windows of width four; its second list holds
    L-3 copies of the complemented first window followed by the same
    windows; every element of either list has four symbols. *)
Theorem no_hairpin_of_primer (s : str) (p : Primer.t) :
  Primer.__init__ s = Ok p →
  ∃ l1 l2,
    Primer.no_hairpin (Primer.seq p) (Primer.len p) = Ok (l1, l2) ∧
    l1 = windows s ∧
    l2 = replicate (length s - 3) (pair <$> take 4 s) ++ windows s ∧
    Forall (λ w, length w = 4%nat) l1 ∧
    Forall (λ w, length w = 4%nat) l2.
Proof.
  intros Hp. apply init_fields in Hp as (Hs & s' & c & _ & ->).
  cbn [Primer.seq Primer.len].
  do 2 eexists. split; [by apply no_hairpin_dna|].
  rewrite windows_length. split; [done|]. split; [done|].
  split; [apply windows_width|].
  apply Forall_app. split; [|apply windows_width].
  destruct (length s - 3)%nat as [|n] eqn:Hn; [constructor|].
  apply Forall_replicate. rewrite length_fmap, length_take. lia.
Qed.

Lemma no_hairpin_of_primer_witness :
  ∃ p l1 l2,
    Primer.__init__ (lit "GATTACA") = Ok p ∧
    Primer.no_hairpin (Primer.seq p) (Primer.len p) = Ok (l1, l2) ∧
    l1 = [lit "GATT"; lit "ATTA"; lit "TTAC"; lit "TACA"] ∧
    l2 = [lit "CTAA"; lit "CTAA"; lit "CTAA"; lit "CTAA";
          lit "GATT"; lit "ATTA"; lit "TTAC"; lit "TACA"].
Proof.
  eexists.
  destruct (no_hairpin_of_primer (lit "GATTACA") _
              ltac:(vm_compute; reflexivity))
    as (l1 & l2 & Hh & H1 & H2 & _).
  exists l1, l2. split; [vm_compute; reflexivity|]. split; [exact Hh|].
  split; [exact H1|exact H2].
Defined.

(** X11: on a string of fewer than four symbols [no_hairpin] returns
    two empty lists without looking any symbol up, so it succeeds
    whatever the symbols are. *)
Theorem no_hairpin_short (s : str) :
  (length s < 4)%nat → Primer.no_hairpin s (Py.len s) = Ok ([], []).
Proof.
  intros Hs. unfold Primer.no_hairpin.
  rewrite first_loop, !app_nil_l, slices_windows.
  unfold windows. replace (length s - 3)%nat with 0%nat by lia.
  reflexivity.
Qed.

Lemma no_hairpin_short_witness :
  Primer.no_hairpin (lit "N?x") (Py.len (lit "N?x")) = Ok ([], []).
Proof.
  apply (no_hairpin_short (lit "N?x")). simpl. lia.
Defined.

(** X12: on a constructed Primer the melting temperature and the
    length determine the GC content: [50 * (tm - 2 * len) / len]
    evaluates to the very float stored in [gc]. *)
Theorem tm_gc_relation (s : str) (p : Primer.t) :
  Primer.__init__ s = Ok p →
  truediv (50 * (Primer.tm p - 2 * Primer.len p)) (Primer.len p)
  = Ok (Primer.gc p).
Proof.
  intros Hp. pose proof (init_len_pos s p Hp) as Hpos.
  apply init_fields in Hp as (Hs & s' & c & _ & ->).
  cbn [Primer.tm Primer.len Primer.gc].
  pose proof (occ_total_dna s Hs) as Htot.
  pose proof (occ_GC_bounds s) as Hk.
  replace (50 * (Primer.primer_tm s - 2 * Py.len s))
    with (100 * (occ "G" s + occ "C" s))
    by (rewrite primer_tm_occ; lia).
  by destruct (truediv_percent (100 * (occ "G" s + occ "C" s)) (Py.len s)
                 ltac:(lia) Hpos) as (-> & _).
Qed.

Lemma tm_gc_relation_witness :
  ∃ p, Primer.__init__ (lit "GGGGAAA") = Ok p ∧
       Primer.tm p = 22 ∧
       Primer.gc p = S754_finite false 8042142191733029 (-47) ∧
       truediv (50 * (22 - 2 * 7)) 7 = Ok (Primer.gc p).
Proof.
  pose proof (tm_gc_relation (lit "GGGGAAA") _
                ltac:(vm_compute; reflexivity)) as H.
  eexists. split; [vm_compute; reflexivity|].
  split; [reflexivity|]. split; [reflexivity|]. exact H.
Defined.

(** X13: the constructor has three outcomes and no other.  On the
    empty string it raises [ZeroDivisionError]; on a non-empty string
    over the four bases it returns; on any other string it raises
    [KeyError] for a symbol of the string outside the four bases.  The
    subscript [dna_string[-1]] therefore never surfaces an
    [IndexError]. *)
Theorem init_outcomes (s : str) :
  (s = [] ∧ Primer.__init__ s = Raise ZeroDivisionError) ∨
  (s ≠ [] ∧ dna s ∧ returns (Primer.__init__ s)) ∨
  (s ≠ [] ∧ ∃ c, c ∈ s ∧ ¬ nucleotide c ∧
                 Primer.__init__ s = Raise (KeyError [c])).
Proof.
  destruct s as [|d s]; [by left|]. right.
  destruct (decide (dna (d :: s))) as [Hs|Hs].
  - left. split; [done|]. split; [done|].
    destruct (init_dna_last (d :: s) ltac:(done) Hs) as (c & _ & Hp).
    eexists. exact Hp.
  - right. split; [done|].
    destruct (comprehension_not_dna (d :: s) Hs) as (c & Hin & Hc & Hm).
    exists c. split; [done|]. split; [done|].
    apply init_raise_of_comp; [done|].
    unfold Primer.primer_comp. by rewrite Hm.
Qed.
